(** * PortfolioService: the read-through cache and the quarter summaries

    A shallow embedding of [class PortfolioService] (the data-access layer
    of the portfolio application) and the properties of its time-windowed
    cache, its grouping aggregation and its cache invalidation.

    Conventions of the embedding.
    - The service runs on one JavaScript thread.  A method is a function
      from the world it starts in to an outcome (a returned value or a
      thrown one), the world it leaves, and the trace of what it did.
      A thrown value does not roll the world back.
    - [await fetchFn()] is the only point where a call is suspended: the
      producer is an arbitrary computation of the same monad, so whatever
      happens to the clock and to the cache while the call is suspended is
      part of what the producer does to the world.
    - [Date.now()] reads the field [now] of the world (milliseconds, an
      integer).
    - [this.cache] is only ever looked up, overwritten and deleted by key,
      so it is a finite map [gmap string _]; [quarterMap] is iterated, so
      it is kept as an insertion-ordered association list ([JsMap]).
    - [number] fields that hold measurements are IEEE binary64 values
      ([float]); [total_stocks] counts rows of an array, and a row count
      (below 2^32) is represented exactly by a JavaScript number, so it is
      a [nat]. *)

From stdpp Require Import gmap strings list fin_maps.
From Stdlib Require Import ZArith Floats.PrimFloat Numbers.Cyclic.Int63.Uint63.

Set Default Proof Using "Type".

(** ** Outcomes, runs and the monad of service methods *)

Inductive outcome (E A : Type) : Type :=
  | Return (a : A)
  | Throw (e : E).
Arguments Return {E A} a.
Arguments Throw {E A} e.

Record run (W Ev E A : Type) : Type := Run {
  outcome_of : outcome E A;
  world_of : W;
  trace_of : list Ev
}.
Arguments Run {W Ev E A} _ _ _.
Arguments outcome_of {W Ev E A} _.
Arguments world_of {W Ev E A} _.
Arguments trace_of {W Ev E A} _.

Section Monad.
Context {W Ev E : Type}.

Definition M (A : Type) : Type := W -> run W Ev E A.

Definition ret {A} (a : A) : M A := fun w => Run (Return a) w [].

Definition throw {A} (e : E) : M A := fun w => Run (Throw e) w [].

Definition bind {A B} (m : M A) (k : A -> M B) : M B := fun w =>
  let r := m w in
  match outcome_of r with
  | Return a =>
      let r' := k a (world_of r) in
      Run (outcome_of r') (world_of r') (trace_of r ++ trace_of r')
  | Throw e => Run (Throw e) (world_of r) (trace_of r)
  end.

(** [try { body } catch (error) { handler }] *)
Definition try_catch {A} (body : M A) (handler : E -> M A) : M A := fun w =>
  let r := body w in
  match outcome_of r with
  | Return a => r
  | Throw e =>
      let r' := handler e (world_of r) in
      Run (outcome_of r') (world_of r') (trace_of r ++ trace_of r')
  end.

Definition emit (ev : Ev) : M unit := fun w => Run (Return tt) w [ev].

Definition gets {A} (f : W -> A) : M A := fun w => Run (Return (f w)) w [].

Definition modify (f : W -> W) : M unit := fun w => Run (Return tt) (f w) [].
End Monad.
Arguments M : clear implicits.

Declare Scope js_scope.
Delimit Scope js_scope with js.
Notation "x <- m ;; k" := (bind m (fun x => k))
  (at level 100, m at next level, right associativity) : js_scope.
Notation "m ;;; k" := (bind m (fun _ => k))
  (at level 100, right associativity) : js_scope.
Local Open Scope js_scope.

(** ** The cache and [getCachedOrFetch] *)

(** [5 * 60 * 1000], five minutes in milliseconds. *)
Definition CACHE_DURATION : Z := 5 * 60 * 1000.

Record CacheEntry (any : Type) : Type := Entry {
  data : any;
  timestamp : Z
}.
Arguments Entry {any} _ _.
Arguments data {any} _.
Arguments timestamp {any} _.

Record World (any : Type) : Type := MkWorld {
  cache : gmap string (CacheEntry any);
  now : Z
}.
Arguments MkWorld {any} _ _.
Arguments cache {any} _.
Arguments now {any} _.

(** What a call leaves behind besides the world: the lines it sends to
    [console.error], and a mark for each call of a producer by
    [getCachedOrFetch] (the mark is ghost, it only serves to state which
    path a call took). *)
Inductive event (err : Type) : Type :=
  | Invoked (cacheKey : string)
  | ConsoleError (label : string) (error : err).
Arguments Invoked {err} cacheKey.
Arguments ConsoleError {err} label error.

Section Cache.
Context {any err : Type}.

Local Abbreviation Svc := (M (World any) (event err) err).

Definition Date_now : Svc Z := gets now.

Definition cache_get (key : string) : Svc (option (CacheEntry any)) :=
  gets (fun w => cache w !! key).

Definition cache_set (key : string) (e : CacheEntry any) : Svc unit :=
  modify (fun w => MkWorld (<[key := e]> (cache w)) (now w)).

Definition console_error (label : string) (error : err) : Svc unit :=
  emit (ConsoleError label error).

(** Lines 45-50: the entry that the hit path returns, if any.
    [cached && ...]: an entry object is always truthy, so the test is on
    the presence of the entry. *)
Definition fresh_entry (cacheKey : string) (forceFresh : bool) : Svc (option any) :=
  if negb forceFresh then
    cached <- cache_get cacheKey ;;
    match cached with
    | Some c =>
        t <- Date_now ;;
        if bool_decide (t - timestamp c < CACHE_DURATION)%Z
        then ret (Some (data c))
        else ret None
    | None => ret None
    end
  else ret None.

(** [fallbackData !== undefined]: [None] is [undefined], whether the
    argument was left out or passed as [undefined]. *)
Definition getCachedOrFetch (cacheKey : string) (fetchFn : Svc any)
    (forceFresh : bool) (fallbackData : option any) : Svc any :=
  hit <- fresh_entry cacheKey forceFresh ;;
  match hit with
  | Some d => ret d
  | None =>
      try_catch
        (emit (Invoked cacheKey) ;;;
         data <- fetchFn ;;
         t <- Date_now ;;
         cache_set cacheKey (Entry data t) ;;;
         ret data)
        (fun error =>
           console_error "Fetch function failed:" error ;;;
           cached <- cache_get cacheKey ;;
           match cached with
           | Some c => ret (data c)
           | None =>
               match fallbackData with
               | Some fb => ret fb
               | None => throw error
               end
           end)
  end.
End Cache.

(** [this.cache.delete(key)] and [this.cache.clear()] *)
Definition cache_delete {any err} (key : string)
    : M (World any) (event err) err unit :=
  modify (fun w => MkWorld (delete key (cache w)) (now w)).

Definition cache_clear {any err} : M (World any) (event err) err unit :=
  modify (fun w => MkWorld ∅ (now w)).

(** [Array.from(this.cache.keys())] *)
Definition cache_keys {any err} : M (World any) (event err) err (list string) :=
  gets (fun w => (map_to_list (cache w)).*1).

(** [xs.forEach(x => f(x))] *)
Fixpoint forEach {W Ev E A} (xs : list A) (f : A -> M W Ev E unit) : M W Ev E unit :=
  match xs with
  | [] => ret tt
  | x :: rest => f x ;;; forEach rest f
  end.

(** ** Strings *)

(** A string used as a condition: [undefined] and [''] are falsy. *)
Definition truthy (s : option string) : bool :=
  match s with
  | Some (String _ _) => true
  | _ => false
  end.

(** [s || d] for an optional string [s]. *)
Definition or_else (s : option string) (d : string) : string :=
  match s with
  | Some (String c r) => String c r
  | _ => d
  end.

Fixpoint starts_with (s prefix : string) {struct prefix} : bool :=
  match prefix, s with
  | EmptyString, _ => true
  | String p prefix', String c s' => bool_decide (p = c) && starts_with s' prefix'
  | String _ _, EmptyString => false
  end.

(** [key.includes(pattern)]: [pattern] occurs in [key] at some position. *)
Fixpoint includes (key pattern : string) : bool :=
  starts_with key pattern ||
  match key with
  | EmptyString => false
  | String _ rest => includes rest pattern
  end.

(** ** [clearCache] *)

Definition clearCache {any err} (pattern : option string)
    : M (World any) (event err) err unit :=
  try_catch
    (match pattern with
     | Some p =>
         if truthy pattern then
           keys <- cache_keys ;;
           let keysToDelete := filter (fun key => includes key p) keys in
           forEach keysToDelete (fun key => cache_delete key)
         else cache_clear
     | None => cache_clear
     end)
    (fun error => console_error "Error clearing cache:" error).

(** ** An insertion-ordered [Map] with string keys

    [quarterMap] is read back with [entries()], which lists the keys in
    the order in which they were first set; [set] on a key already present
    replaces the value and keeps the position. *)
Module JsMap.
Definition t (V : Type) : Type := list (string * V).

Definition empty {V} : t V := [].

Fixpoint get {V} (key : string) (m : t V) : option V :=
  match m with
  | [] => None
  | (k, v) :: rest => if bool_decide (k = key) then Some v else get key rest
  end.

Fixpoint set {V} (key : string) (v : V) (m : t V) : t V :=
  match m with
  | [] => [(key, v)]
  | (k, v') :: rest =>
      if bool_decide (k = key) then (k, v) :: rest else (k, v') :: set key v rest
  end.

Definition entries {V} (m : t V) : list (string * V) := m.

Definition keys {V} (m : t V) : list string := m.*1.
End JsMap.

(** ** Records of the service *)

(** [PortfolioConstituent], a row of [portfolio_constituents]. *)
Module Constituent.
Record t : Type := Make {
  id : Z;
  user_id : option string;
  quarter : string;
  stock_name : string;
  stock_code : string;
  company_logo_url : option string;
  weight : float;
  quarterly_returns : float;
  created_at : string;
  updated_at : string
}.
End Constituent.

(** A row of [select('quarter, weight, quarterly_returns')]. *)
Module Item.
Record t : Type := Make {
  quarter : string;
  weight : float;
  quarterly_returns : float
}.
End Item.

(** A value of [quarterMap]. *)
Module Group.
Record t : Type := Make {
  total_stocks : nat;
  total_returns : float;
  total_weight : float
}.
End Group.

(** [QuarterSummary] *)
Module Summary.
Record t : Type := Make {
  quarter : string;
  total_stocks : nat;
  avg_returns : float;
  total_weight : float
}.
End Summary.

(** The row count as the divisor of [total_returns / total_stocks]. *)
Definition of_count (n : nat) : float :=
  PrimFloat.of_uint63 (Uint63.of_Z (Z.of_nat n)).

(** ** The grouping aggregation of [getQuartersSummary] (lines 137-165) *)

(** The body of [data.forEach(item => ...)]. *)
Definition quarterMap_step (quarterMap : JsMap.t Group.t) (item : Item.t)
    : JsMap.t Group.t :=
  let existing :=
    default (Group.Make 0 0%float 0%float) (JsMap.get (Item.quarter item) quarterMap) in
  JsMap.set (Item.quarter item)
    (Group.Make
       (Group.total_stocks existing + 1)
       (Group.total_returns existing + Item.quarterly_returns item)%float
       (Group.total_weight existing + Item.weight item)%float)
    quarterMap.

Definition group_by_quarter (data : list Item.t) : JsMap.t Group.t :=
  fold_left quarterMap_step data JsMap.empty.

Definition to_summary (entry : string * Group.t) : Summary.t :=
  let '(quarter, summary) := entry in
  Summary.Make quarter
    (Group.total_stocks summary)
    (Group.total_returns summary / of_count (Group.total_stocks summary))%float
    (Group.total_weight summary).

Definition summaries (data : list Item.t) : list Summary.t :=
  to_summary <$> JsMap.entries (group_by_quarter data).

(** ** The summaries as the specification words them

    One summary per distinct quarter, in the order in which the quarters
    first occur; each one counts the rows of its quarter and adds up their
    returns and weights (from [0], in row order, which is what a sum of
    floating-point numbers has to fix). *)
Fixpoint first_occurrences (qs : list string) : list string :=
  match qs with
  | [] => []
  | q :: rest => q :: filter (fun q' => q' <> q) (first_occurrences rest)
  end.

Definition rows_of (q : string) (data : list Item.t) : list Item.t :=
  filter (fun item => Item.quarter item = q) data.

Definition sum (xs : list float) : float := fold_left PrimFloat.add xs 0%float.

Definition summary_of (data : list Item.t) (q : string) : Summary.t :=
  let rows := rows_of q data in
  Summary.Make q
    (length rows)
    (sum (Item.quarterly_returns <$> rows) / of_count (length rows))%float
    (sum (Item.weight <$> rows)).

Definition summaries_spec (data : list Item.t) : list Summary.t :=
  summary_of data <$> first_occurrences (Item.quarter <$> data).

(** ** The hosted store

    [./supabase] exports a client whose query builder is awaited; what the
    store answers is not the service's to decide, so the client is a
    parameter of the service.  A query is the record of the builder calls
    made on it. *)
Module Supabase.
Inductive filter : Type :=
  | Eq (column value : string)
  | IsNull (column : string).

(** The columns asked for fix the shape of the rows that come back.  The
    family sits in a universe above that of the row types it is indexed
    by. *)
Universes row_level selection_level.
Constraint row_level < selection_level.
Inductive selection : Type@{row_level} -> Type@{selection_level} :=
  | Star : selection Constituent.t
  | QuarterWeightReturns : selection Item.t.

Record query (R : Type) : Type := Query {
  table : string;
  columns : selection R;
  filters : list filter;
  ordering : option (string * bool)
}.
Arguments Query {R} _ _ _ _.
Arguments table {R} _.
Arguments columns {R} _.
Arguments filters {R} _.
Arguments ordering {R} _.

Definition from_select {R} (table : string) (columns : selection R) : query R :=
  Query table columns [] None.

Definition eq {R} (column value : string) (q : query R) : query R :=
  Query (table q) (columns q) (filters q ++ [Eq column value]) (ordering q).

Definition is_null {R} (column : string) (q : query R) : query R :=
  Query (table q) (columns q) (filters q ++ [IsNull column]) (ordering q).

Definition order {R} (column : string) (ascending : bool) (q : query R) : query R :=
  Query (table q) (columns q) (filters q) (Some (column, ascending)).

(** [{ data, error }] *)
Record response (err R : Type) : Type := Response {
  data : option (list R);
  error : option err
}.
Arguments Response {err R} _ _.
Arguments data {err R} _.
Arguments error {err R} _.
End Supabase.

(** What the cache holds ([data: any]): the results of the two reads. *)
Inductive value : Type :=
  | Constituents (rows : list Constituent.t)
  | Summaries (rows : list Summary.t).

Section Service.
Context {err : Type}.

Local Abbreviation Svc := (M (World value) (event err) err).

Variable supabase : forall R, Supabase.query R -> Svc (Supabase.response err R).

(** The owner filter shared by both reads (lines 88-92 and 121-125). *)
Definition owned_by {R} (userId : option string) (query : Supabase.query R)
    : Supabase.query R :=
  match userId with
  | Some u => if truthy userId then Supabase.eq "user_id" u query
              else Supabase.is_null "user_id" query
  | None => Supabase.is_null "user_id" query
  end.

Definition portfolio_query (quarter : string) (userId : option string)
    : Supabase.query Constituent.t :=
  owned_by userId
    (Supabase.order "weight" false
       (Supabase.eq "quarter" quarter
          (Supabase.from_select "portfolio_constituents" Supabase.Star))).

Definition portfolio_key (quarter : string) (userId : option string) : string :=
  "portfolio_" +:+ quarter +:+ "_" +:+ or_else userId "public".

Definition getPortfolioByQuarter (quarter : string) (userId : option string)
    : Svc value :=
  let cacheKey := portfolio_key quarter userId in
  getCachedOrFetch cacheKey
    (try_catch
       (reply <- supabase _ (portfolio_query quarter userId) ;;
        match Supabase.error reply with
        | Some error => throw error
        | None => ret (Constituents (default [] (Supabase.data reply)))
        end)
       (fun error =>
          console_error "Error in getPortfolioByQuarter:" error ;;;
          throw error))
    false None.

Definition quarters_query (userId : option string) : Supabase.query Item.t :=
  owned_by userId
    (Supabase.order "quarter" false
       (Supabase.from_select "portfolio_constituents" Supabase.QuarterWeightReturns)).

Definition quarters_key (userId : option string) : string :=
  "quarters_" +:+ or_else userId "public".

Definition getQuartersSummary (userId : option string) : Svc value :=
  let cacheKey := quarters_key userId in
  getCachedOrFetch cacheKey
    (try_catch
       (reply <- supabase _ (quarters_query userId) ;;
        match Supabase.error reply with
        | Some error => throw error
        | None =>
            match Supabase.data reply with
            | None | Some [] => ret (Summaries [])
            | Some data => ret (Summaries (summaries data))
            end
        end)
       (fun error =>
          console_error "Error in getQuartersSummary:" error ;;;
          throw error))
    false None.
End Service.

(** ** Words of the specification about the cache *)

Section CacheSpec.
Context {any err : Type}.

(** "age is computed as current time minus stored timestamp" *)
Definition age (w : World any) (c : CacheEntry any) : Z := now w - timestamp c.

(** The sole hit path: [forceFresh] is false and an entry exists for the
    key with age below the freshness window. *)
Definition hit_path (cacheKey : string) (forceFresh : bool) (w : World any) : Prop :=
  forceFresh = false /\
  match cache w !! cacheKey with
  | Some c => (age w c < CACHE_DURATION)%Z
  | None => False
  end.

(** A producer that succeeds, whatever the world it is called in. *)
Definition succeeds (fetchFn : M (World any) (event err) err any) : Prop :=
  forall w, exists d, outcome_of (fetchFn w) = Return d.

(** The same cache, read when the clock shows [t]. *)
Definition at_time (t : Z) (w : World any) : World any := MkWorld (cache w) t.
End CacheSpec.

(** ** Words of the specification about the summaries and the patterns *)

(** What [quarterMap] holds for a quarter once [rows] of that quarter
    have been seen. *)
Definition group_of (rows : list Item.t) : Group.t :=
  Group.Make (length rows)
    (sum (Item.quarterly_returns <$> rows))
    (sum (Item.weight <$> rows)).

(** [quarterMap] after the rows of [data] have been seen. *)
Definition grouped (data : list Item.t) : JsMap.t Group.t :=
  (fun q => (q, group_of (rows_of q data))) <$> first_occurrences (Item.quarter <$> data).

(** [pattern] occurs in [key]. *)
Definition substring_of (pattern key : string) : Prop :=
  exists before after, key = before +:+ pattern +:+ after.

(** The rows and the summaries of the worked example.  A decimal literal
    stands for the nearest binary64 value, as it does in JavaScript. *)
#[warnings="-inexact-float"]
Definition example_rows : list Item.t :=
  [Item.Make "Q1" 0.5 10; Item.Make "Q1" 0.3 20; Item.Make "Q2" 1.0 5]%float.

#[warnings="-inexact-float"]
Definition example_summaries : list Summary.t :=
  [Summary.Make "Q1" 2 15 0.8; Summary.Make "Q2" 1 5 1.0]%float.

(** ** Sample producers and worlds, for concrete runs *)

Definition sample_ok (n : nat) : M (World nat) (event string) string nat :=
  fun w => Run (Return n) (at_time (now w + 10) w) [].

Definition sample_fail : M (World nat) (event string) string nat :=
  fun w => Run (Throw "offline") (at_time (now w + 10) w) [].

Definition sample_empty : World nat := MkWorld ∅ 1000.

(** An entry whose age is exactly the freshness window, and one a
    millisecond younger. *)
Definition sample_stale : World nat := MkWorld {["k" := Entry 7 0]} 300000.

Definition sample_fresh : World nat := MkWorld {["k" := Entry 7 1]} 300000.

(** A store that answers every query with the same reply. *)
Definition sample_store (rows : list Item.t) (R : Type) (q : Supabase.query R)
    : M (World value) (event string) string (Supabase.response string R) :=
  fun w =>
    Run (Return
           match Supabase.columns q in Supabase.selection T
                 return Supabase.response string T with
           | Supabase.Star => Supabase.Response (Some []) None
           | Supabase.QuarterWeightReturns => Supabase.Response (Some rows) None
           end)
        (at_time (now w + 40) w) [].

Definition sample_service_world : World value := MkWorld ∅ 1000.

Definition sample_cache : World nat :=
  MkWorld (<["portfolio_Q1_public" := Entry 1 0]>
             (<["portfolio_Q2_public" := Entry 2 0]>
                (<["quarters_public" := Entry 3 0]> ∅))) 50.

(** ** Words for the properties of the two reads *)

Definition is_constituents (v : value) : Prop :=
  match v with
  | Constituents _ => True
  | Summaries _ => False
  end.

Definition is_summaries (v : value) : Prop :=
  match v with
  | Constituents _ => False
  | Summaries _ => True
  end.

(** Every entry holds what the method that reads its key casts it to:
    rows under the keys of [getPortfolioByQuarter], summaries under the
    keys of [getQuartersSummary]. *)
Definition well_typed (w : World value) : Prop :=
  forall key c, cache w !! key = Some c ->
    (starts_with key "portfolio_" = true -> is_constituents (data c)) /\
    (starts_with key "quarters_" = true -> is_summaries (data c)).


(** The producers that the two reads hand to [getCachedOrFetch] (the
    arrow functions of lines 80-105 and 114-170), under names of their
    own. *)
Section Producers.
Context {err : Type}.
Variable supabase :
  forall R, Supabase.query R -> M (World value) (event err) err (Supabase.response err R).

Definition portfolio_fetch (quarter : string) (userId : option string)
    : M (World value) (event err) err value :=
  try_catch
    (reply <- supabase _ (portfolio_query quarter userId) ;;
     match Supabase.error reply with
     | Some error => throw error
     | None => ret (Constituents (default [] (Supabase.data reply)))
     end)
    (fun error =>
       console_error "Error in getPortfolioByQuarter:" error ;;;
       throw error).

Definition quarters_fetch (userId : option string)
    : M (World value) (event err) err value :=
  try_catch
    (reply <- supabase _ (quarters_query userId) ;;
     match Supabase.error reply with
     | Some error => throw error
     | None =>
         match Supabase.data reply with
         | None | Some [] => ret (Summaries [])
         | Some data => ret (Summaries (summaries data))
         end
     end)
    (fun error =>
       console_error "Error in getQuartersSummary:" error ;;;
       throw error).
End Producers.



(** ** How a call of [getCachedOrFetch] runs *)

Section CacheRuns.
Context {any err : Type}.
Implicit Types (w : World any) (fetchFn : M (World any) (event err) err any).
Implicit Types (fallbackData : option any) (cacheKey : string).

Lemma hit_path_dec cacheKey forceFresh w :
  {c | forceFresh = false /\ cache w !! cacheKey = Some c /\ (age w c < CACHE_DURATION)%Z}
  + {~ hit_path cacheKey forceFresh w}.
Proof.
  unfold hit_path. destruct forceFresh.
  - right. intros [? _]. discriminate.
  - destruct (cache w !! cacheKey) as [c|] eqn:Hc.
    + destruct (decide (age w c < CACHE_DURATION)%Z) as [Hlt|Hge].
      * left. exists c. auto.
      * right. intros [_ ?]. contradiction.
    + right. intros [_ []].
Qed.

Lemma fresh_entry_hit cacheKey w c :
  cache w !! cacheKey = Some c -> (age w c < CACHE_DURATION)%Z ->
  fresh_entry (err:=err) cacheKey false w = Run (Return (Some (data c))) w [].
Proof.
  intros Hc Hlt. unfold fresh_entry, cache_get, Date_now, bind, gets, ret. simpl.
  rewrite Hc. simpl. unfold age in Hlt. rewrite bool_decide_eq_true_2 by exact Hlt.
  reflexivity.
Qed.

Lemma fresh_entry_miss cacheKey forceFresh w :
  ~ hit_path cacheKey forceFresh w ->
  fresh_entry (err:=err) cacheKey forceFresh w = Run (Return None) w [].
Proof.
  intros Hmiss. unfold fresh_entry, cache_get, Date_now, bind, gets, ret.
  destruct forceFresh; simpl; [reflexivity|].
  destruct (cache w !! cacheKey) as [c|] eqn:Hc; simpl; [|reflexivity].
  rewrite bool_decide_eq_false_2; [reflexivity|].
  intros Hlt. apply Hmiss. unfold hit_path. rewrite Hc. auto.
Qed.

(** The hit path: the stored data, the world untouched, nothing done. *)
Lemma getCachedOrFetch_hit cacheKey fetchFn fallbackData w c :
  cache w !! cacheKey = Some c -> (age w c < CACHE_DURATION)%Z ->
  getCachedOrFetch cacheKey fetchFn false fallbackData w = Run (Return (data c)) w [].
Proof.
  intros Hc Hlt. unfold getCachedOrFetch, bind.
  rewrite (fresh_entry_hit _ _ _ Hc Hlt). reflexivity.
Qed.

(** Off the hit path the producer runs in the world of the call; the
    rest of the call is decided by how the producer ends. *)
Lemma getCachedOrFetch_miss cacheKey fetchFn forceFresh fallbackData w :
  ~ hit_path cacheKey forceFresh w ->
  getCachedOrFetch cacheKey fetchFn forceFresh fallbackData w =
  let f := fetchFn w in
  match outcome_of f with
  | Return d =>
      Run (Return d)
          (MkWorld (<[cacheKey := Entry d (now (world_of f))]> (cache (world_of f)))
                   (now (world_of f)))
          (Invoked cacheKey :: trace_of f)
  | Throw e =>
      Run match cache (world_of f) !! cacheKey with
          | Some c => Return (data c)
          | None => match fallbackData with
                    | Some fb => Return fb
                    | None => Throw e
                    end
          end
          (world_of f)
          (Invoked cacheKey :: trace_of f ++ [ConsoleError "Fetch function failed:" e])
  end.
Proof.
  intros Hmiss. unfold getCachedOrFetch, bind at 1.
  rewrite (fresh_entry_miss _ _ _ Hmiss). simpl.
  unfold try_catch, bind, emit, Date_now, cache_set, cache_get, console_error,
    gets, modify, ret, throw. simpl.
  destruct (fetchFn w) as [[d|e] w1 tr]; simpl.
  - rewrite ?app_nil_r. reflexivity.
  - destruct (cache w1 !! cacheKey) as [c|]; simpl.
    + rewrite ?app_nil_r. reflexivity.
    + destruct fallbackData; simpl; rewrite ?app_nil_r; reflexivity.
Qed.
End CacheRuns.

(** ** Properties of [getCachedOrFetch] *)

Section CacheProperties.
Context {any err : Type}.
Implicit Types (w : World any) (fetchFn : M (World any) (event err) err any).
Implicit Types (fallbackData : option any) (cacheKey : string).

(** C1. When a call with [forceFresh = false] and a producer that
    succeeds has returned [d], an entry is stored for the key, and every
    later call for the key with [forceFresh = false], made while the age
    of that entry is below the five-minute window, returns [d] again,
    leaves the world as it is and does nothing: its trace is empty, so no
    producer is invoked, whichever producer and fallback it is given. *)
Theorem fresh_hit_repeats_first_result cacheKey fetchFn fallbackData w d :
  succeeds fetchFn ->
  outcome_of (getCachedOrFetch cacheKey fetchFn false fallbackData w) = Return d ->
  let w1 := world_of (getCachedOrFetch cacheKey fetchFn false fallbackData w) in
  exists c, cache w1 !! cacheKey = Some c /\
    forall t fetchFn' fallbackData',
      (age (at_time t w1) c < CACHE_DURATION)%Z ->
      getCachedOrFetch cacheKey fetchFn' false fallbackData' (at_time t w1)
      = Run (Return d) (at_time t w1) [].
Proof.
  intros Hok. destruct (hit_path_dec cacheKey false w) as [(c & _ & Hc & Hlt)|Hmiss].
  - rewrite (getCachedOrFetch_hit _ fetchFn fallbackData _ _ Hc Hlt). simpl.
    intros [= <-]. exists c. split; [exact Hc|].
    intros t fetchFn' fallbackData' Hlt'.
    apply (getCachedOrFetch_hit _ fetchFn' fallbackData' (at_time t w) c); assumption.
  - rewrite (getCachedOrFetch_miss _ fetchFn _ fallbackData _ Hmiss). simpl.
    destruct (Hok w) as [d' Hd']. rewrite Hd'. simpl. intros [= ->].
    eexists. split; [apply lookup_insert_eq|].
    intros t fetchFn' fallbackData' Hlt'.
    apply (getCachedOrFetch_hit _ fetchFn' fallbackData' _
             (Entry d (now (world_of (fetchFn w))))); [|exact Hlt'].
    simpl. apply lookup_insert_eq.
Qed.

(** C2. When the producer is run and fails, and the cache holds an entry
    for the key at that moment, of whatever age, the call returns the data
    of that entry; it does not throw. *)
Theorem failure_returns_stored_entry cacheKey fetchFn forceFresh fallbackData w e c :
  ~ hit_path cacheKey forceFresh w ->
  outcome_of (fetchFn w) = Throw e ->
  cache (world_of (fetchFn w)) !! cacheKey = Some c ->
  outcome_of (getCachedOrFetch cacheKey fetchFn forceFresh fallbackData w)
  = Return (data c).
Proof.
  intros Hmiss He Hc. rewrite (getCachedOrFetch_miss _ _ _ _ _ Hmiss). simpl.
  rewrite He. simpl. rewrite Hc. reflexivity.
Qed.

(** C3. When the producer is run and fails, and the cache holds no entry
    for the key at that moment, the call returns the fallback value if one
    was passed, and otherwise throws the very error of the producer. *)
Theorem failure_without_entry cacheKey fetchFn forceFresh fallbackData w e :
  ~ hit_path cacheKey forceFresh w ->
  outcome_of (fetchFn w) = Throw e ->
  cache (world_of (fetchFn w)) !! cacheKey = None ->
  outcome_of (getCachedOrFetch cacheKey fetchFn forceFresh fallbackData w)
  = match fallbackData with
    | Some fb => Return fb
    | None => Throw e
    end.
Proof.
  intros Hmiss He Hc. rewrite (getCachedOrFetch_miss _ _ _ _ _ Hmiss). simpl.
  rewrite He. simpl. rewrite Hc. reflexivity.
Qed.

(** C4. A call writes the cache only when its producer succeeds: it then
    stores the result under the key with the time read after the producer
    has ended, over any earlier entry, and touches no other key.  On the
    hit path the world is untouched; when the producer fails the call
    leaves the world as the producer left it, so a producer that does not
    touch the cache leaves it exactly as it was before the call. *)
Theorem cache_written_only_on_success cacheKey fetchFn forceFresh fallbackData w :
  let r := getCachedOrFetch cacheKey fetchFn forceFresh fallbackData w in
  let f := fetchFn w in
  (hit_path cacheKey forceFresh w -> world_of r = w) /\
  (~ hit_path cacheKey forceFresh w -> forall d, outcome_of f = Return d ->
     outcome_of r = Return d /\
     cache (world_of r) !! cacheKey = Some (Entry d (now (world_of f))) /\
     forall key, key <> cacheKey ->
       cache (world_of r) !! key = cache (world_of f) !! key) /\
  (~ hit_path cacheKey forceFresh w -> forall e, outcome_of f = Throw e ->
     world_of r = world_of f /\
     (cache (world_of f) = cache w -> cache (world_of r) = cache w)).
Proof.
  simpl. split; [|split].
  - intros [-> Hhit]. destruct (cache w !! cacheKey) as [c|] eqn:Hc; [|contradiction].
    rewrite (getCachedOrFetch_hit _ _ _ _ _ Hc Hhit). reflexivity.
  - intros Hmiss d Hd. rewrite (getCachedOrFetch_miss _ _ _ _ _ Hmiss). simpl.
    rewrite Hd. simpl. split; [reflexivity|]. split.
    + apply lookup_insert_eq.
    + intros key Hne. apply lookup_insert_ne. congruence.
  - intros Hmiss e He. rewrite (getCachedOrFetch_miss _ _ _ _ _ Hmiss). simpl.
    rewrite He. simpl. split; [reflexivity|]. intros ->. reflexivity.
Qed.

(** C6. When the entry stored for the key has an age of five minutes or
    more, a call with [forceFresh = false] does not take the hit path: it
    invokes the producer in the world of the call, and when the producer
    returns, the call returns that result and stores it. *)
Theorem stale_entry_invokes_producer cacheKey fetchFn fallbackData w c :
  cache w !! cacheKey = Some c ->
  (CACHE_DURATION <= age w c)%Z ->
  let r := getCachedOrFetch cacheKey fetchFn false fallbackData w in
  let f := fetchFn w in
  (exists tr, trace_of r = Invoked cacheKey :: trace_of f ++ tr) /\
  (forall d, outcome_of f = Return d ->
     outcome_of r = Return d /\
     cache (world_of r) !! cacheKey = Some (Entry d (now (world_of f)))).
Proof.
  intros Hc Hage. simpl.
  assert (Hmiss : ~ hit_path cacheKey false w).
  { unfold hit_path. rewrite Hc. intros [_ Hlt]. lia. }
  rewrite (getCachedOrFetch_miss _ _ _ _ _ Hmiss). simpl.
  destruct (fetchFn w) as [[d|e] w1 tr]; simpl; split.
  - exists []. rewrite app_nil_r. reflexivity.
  - intros d' [= <-]. split; [reflexivity|apply lookup_insert_eq].
  - eexists. reflexivity.
  - intros d' [=].
Qed.

(** C10. With [forceFresh = true] the producer is always invoked, in the
    world of the call and whatever the cache holds; when it returns, the
    call returns its result, and when it fails while an entry is stored
    for the key, the call still returns the data of that entry. *)
Theorem forceFresh_skips_hit_not_fallback cacheKey fetchFn fallbackData w :
  let r := getCachedOrFetch cacheKey fetchFn true fallbackData w in
  let f := fetchFn w in
  (exists tr, trace_of r = Invoked cacheKey :: trace_of f ++ tr) /\
  (forall d, outcome_of f = Return d -> outcome_of r = Return d) /\
  (forall e c, outcome_of f = Throw e ->
     cache (world_of f) !! cacheKey = Some c ->
     outcome_of r = Return (data c)).
Proof.
  cbv zeta.
  assert (Hmiss : ~ hit_path cacheKey true w) by (intros [? _]; discriminate).
  rewrite (getCachedOrFetch_miss _ _ _ _ _ Hmiss). simpl.
  destruct (fetchFn w) as [[d|e] w1 tr]; simpl; split; [| split | | split].
  - exists []. rewrite app_nil_r. reflexivity.
  - intros d' [= <-]. reflexivity.
  - intros e c [=].
  - eexists. reflexivity.
  - intros d' [=].
  - intros e' c [= <-] ->. reflexivity.
Qed.
End CacheProperties.

(** *** Concrete runs of the cache properties *)

(** A first call on an empty cache stores 7; calls within the window
    return 7 without a producer call. *)
Lemma fresh_hit_repeats_first_result_witness :
  succeeds (sample_ok 7) /\
  outcome_of (getCachedOrFetch "k" (sample_ok 7) false None sample_empty) = Return 7 /\
  let w1 := world_of (getCachedOrFetch "k" (sample_ok 7) false None sample_empty) in
  exists c, cache w1 !! "k" = Some c /\
    forall t (fetchFn' : M (World nat) (event string) string nat) fallbackData',
      (age (at_time t w1) c < CACHE_DURATION)%Z ->
      getCachedOrFetch "k" fetchFn' false fallbackData' (at_time t w1)
      = Run (Return 7) (at_time t w1) [].
Proof.
  assert (Hok : succeeds (sample_ok 7)) by (intros w; exists 7; reflexivity).
  assert (Hret : outcome_of (getCachedOrFetch "k" (sample_ok 7) false None sample_empty)
                 = Return 7) by (vm_compute; reflexivity).
  split; [exact Hok|]. split; [exact Hret|].
  exact (fresh_hit_repeats_first_result "k" (sample_ok 7) None sample_empty 7 Hok Hret).
Defined.

(** The store is offline and the entry is five minutes old: the entry's
    data come back. *)
Lemma failure_returns_stored_entry_witness :
  ~ hit_path "k" false sample_stale /\
  outcome_of (getCachedOrFetch "k" sample_fail false None sample_stale) = Return 7.
Proof.
  assert (Hmiss : ~ hit_path "k" false sample_stale).
  { intros [_ H]. vm_compute in H. discriminate. }
  split; [exact Hmiss|].
  apply (failure_returns_stored_entry "k" sample_fail false None sample_stale
           "offline" (Entry 7 0) Hmiss); reflexivity.
Defined.

(** The store is offline and nothing is cached: the fallback comes back. *)
Lemma failure_without_entry_witness :
  ~ hit_path "k" false sample_empty /\
  outcome_of (getCachedOrFetch "k" sample_fail false (Some 3) sample_empty) = Return 3.
Proof.
  assert (Hmiss : ~ hit_path "k" false sample_empty).
  { intros [_ H]. vm_compute in H. exact H. }
  split; [exact Hmiss|].
  apply (failure_without_entry "k" sample_fail false (Some 3) sample_empty
           "offline" Hmiss); reflexivity.
Defined.

(** A failed refresh of a stale entry leaves the cache as it was. *)
Lemma cache_written_only_on_success_witness :
  ~ hit_path "k" false sample_stale /\
  cache (world_of (getCachedOrFetch "k" sample_fail false None sample_stale))
  = cache sample_stale.
Proof.
  assert (Hmiss : ~ hit_path "k" false sample_stale).
  { intros [_ H]. vm_compute in H. discriminate. }
  split; [exact Hmiss|].
  destruct (cache_written_only_on_success "k" sample_fail false None sample_stale)
    as (_ & _ & Hfail).
  destruct (Hfail Hmiss "offline" eq_refl) as [_ Hsame].
  apply Hsame. reflexivity.
Defined.

(** An entry aged exactly five minutes is refreshed. *)
Lemma stale_entry_invokes_producer_witness :
  (CACHE_DURATION <= age sample_stale (Entry 7%nat 0))%Z /\
  outcome_of (getCachedOrFetch "k" (sample_ok 9) false None sample_stale) = Return 9.
Proof.
  assert (Hage : (CACHE_DURATION <= age sample_stale (Entry 7%nat 0))%Z).
  { vm_compute. discriminate. }
  split; [exact Hage|].
  destruct (stale_entry_invokes_producer "k" (sample_ok 9) None sample_stale
              (Entry 7 0) eq_refl Hage) as [_ Hret].
  destruct (Hret 9 eq_refl) as [Hout _]. exact Hout.
Defined.

(** A forced refresh skips a fresh entry, and falls back on it when the
    store is offline. *)
Lemma forceFresh_skips_hit_not_fallback_witness :
  hit_path "k" false sample_fresh /\
  outcome_of (getCachedOrFetch "k" (sample_ok 9) true None sample_fresh) = Return 9 /\
  outcome_of (getCachedOrFetch "k" sample_fail true None sample_fresh) = Return 7.
Proof.
  split; [split; [reflexivity|vm_compute; reflexivity]|]. split.
  - destruct (forceFresh_skips_hit_not_fallback "k" (sample_ok 9) None sample_fresh)
      as (_ & Hret & _).
    apply Hret. reflexivity.
  - destruct (forceFresh_skips_hit_not_fallback "k" sample_fail None sample_fresh)
      as (_ & _ & Hfail).
    apply (Hfail "offline" (Entry 7 1)); reflexivity.
Defined.

(** ** The aggregation of [getQuartersSummary] *)

Section Aggregation.
Implicit Types (q : string) (qs ks : list string) (data rows : list Item.t).

Lemma first_occurrences_elem q qs : q ∈ first_occurrences qs <-> q ∈ qs.
Proof.
  induction qs as [|x qs IH]; simpl; [reflexivity|].
  rewrite !elem_of_cons, list_elem_of_filter, IH.
  destruct (decide (q = x)); tauto.
Qed.

Lemma first_occurrences_NoDup qs : NoDup (first_occurrences qs).
Proof.
  induction qs as [|x qs IH]; simpl; [constructor|].
  apply NoDup_cons. split.
  - rewrite list_elem_of_filter. intros [Hne _]. congruence.
  - apply NoDup_filter, IH.
Qed.

(** A quarter seen again keeps its place; a new one goes last. *)
Lemma first_occurrences_snoc qs q :
  first_occurrences (qs ++ [q]) =
  if decide (q ∈ qs) then first_occurrences qs else first_occurrences qs ++ [q].
Proof.
  induction qs as [|x qs IH]; simpl.
  - rewrite filter_nil. destruct (decide (q ∈ [])) as [Hin|_]; [|reflexivity].
    apply elem_of_nil in Hin. contradiction.
  - rewrite IH. destruct (decide (q ∈ qs)) as [Hin|Hout].
    + rewrite decide_True by (apply elem_of_cons; auto). reflexivity.
    + rewrite filter_app, filter_cons, filter_nil.
      destruct (decide (q <> x)) as [Hne|Heq].
      * rewrite decide_False; [reflexivity|].
        rewrite elem_of_cons. tauto.
      * rewrite decide_True; [rewrite app_nil_r; reflexivity|].
        apply elem_of_cons. left. destruct (decide (q = x)); [assumption|contradiction].
Qed.

Lemma JsMap_get_tabulated {V} (f : string -> V) q ks :
  JsMap.get q ((fun k => (k, f k)) <$> ks) =
  if decide (q ∈ ks) then Some (f q) else None.
Proof.
  induction ks as [|k ks IH]; csimpl.
  - destruct (decide (q ∈ [])) as [Hin|_]; [|reflexivity].
    apply elem_of_nil in Hin. contradiction.
  - case_bool_decide as Hk.
    + subst k. rewrite decide_True by (apply elem_of_cons; auto). reflexivity.
    + rewrite IH. destruct (decide (q ∈ ks)) as [Hin|Hout].
      * rewrite decide_True by (apply elem_of_cons; auto). reflexivity.
      * rewrite decide_False; [reflexivity|]. rewrite elem_of_cons.
        intros [->|Hin]; [apply Hk; reflexivity|contradiction].
Qed.

(** [set] on a key that is present replaces its value in place. *)
Lemma JsMap_set_present {V} (f : string -> V) q v ks :
  NoDup ks -> q ∈ ks ->
  JsMap.set q v ((fun k => (k, f k)) <$> ks) =
  (fun k => (k, if decide (k = q) then v else f k)) <$> ks.
Proof.
  induction ks as [|k ks IH]; intros Hnd Hin.
  - apply elem_of_nil in Hin. contradiction.
  - apply NoDup_cons in Hnd as [Hk Hnd]. csimpl. case_bool_decide as Hkq.
    + subst k. rewrite decide_True by reflexivity. f_equal.
      apply list_fmap_ext. intros i k Hik.
      rewrite decide_False; [reflexivity|].
      intros ->. apply Hk. eapply list_elem_of_lookup_2, Hik.
    + rewrite decide_False by assumption. f_equal.
      apply IH; [assumption|]. apply elem_of_cons in Hin as [->|Hin]; [contradiction|assumption].
Qed.

(** [set] on a new key adds it after the others. *)
Lemma JsMap_set_absent {V} (f : string -> V) q v ks :
  q ∉ ks ->
  JsMap.set q v ((fun k => (k, f k)) <$> ks) = ((fun k => (k, f k)) <$> ks) ++ [(q, v)].
Proof.
  induction ks as [|k ks IH]; intros Hout; csimpl; [reflexivity|].
  rewrite not_elem_of_cons in Hout. destruct Hout as [Hne Hout].
  rewrite bool_decide_eq_false_2 by congruence.
  rewrite IH by assumption. reflexivity.
Qed.

Lemma rows_of_snoc q data item :
  rows_of q (data ++ [item]) =
  rows_of q data ++ (if decide (Item.quarter item = q) then [item] else []).
Proof. unfold rows_of. rewrite filter_app, filter_cons, filter_nil. reflexivity. Qed.

Lemma rows_of_absent q data : q ∉ Item.quarter <$> data -> rows_of q data = [].
Proof.
  unfold rows_of. induction data as [|item data IH]; intros Hout; [reflexivity|].
  rewrite fmap_cons, not_elem_of_cons in Hout. destruct Hout as [Hne Hout].
  rewrite filter_cons_False by congruence. apply IH, Hout.
Qed.

Lemma rows_of_present q data : q ∈ Item.quarter <$> data -> 1 <= length (rows_of q data).
Proof.
  intros Hin. apply list_elem_of_fmap in Hin as (item & -> & Hin).
  assert (Hrow : item ∈ rows_of (Item.quarter item) data).
  { unfold rows_of. apply list_elem_of_filter. auto. }
  destruct (rows_of (Item.quarter item) data); simpl; [|lia].
  apply elem_of_nil in Hrow. contradiction.
Qed.

Lemma sum_snoc xs x : sum (xs ++ [x]) = (sum xs + x)%float.
Proof. unfold sum. rewrite fold_left_app. reflexivity. Qed.

Lemma group_of_snoc rows item :
  group_of (rows ++ [item]) =
  Group.Make
    (Group.total_stocks (group_of rows) + 1)
    (Group.total_returns (group_of rows) + Item.quarterly_returns item)%float
    (Group.total_weight (group_of rows) + Item.weight item)%float.
Proof.
  unfold group_of. rewrite !fmap_app, length_app. csimpl.
  rewrite !sum_snoc. reflexivity.
Qed.

(** One turn of the [forEach] loop keeps [quarterMap] in step with the
    rows seen so far. *)
Lemma quarterMap_step_grouped data item :
  quarterMap_step (grouped data) item = grouped (data ++ [item]).
Proof.
  unfold quarterMap_step, grouped.
  rewrite fmap_app.
  change (Item.quarter <$> [item]) with [Item.quarter item].
  rewrite first_occurrences_snoc, JsMap_get_tabulated.
  set (q := Item.quarter item). set (qs := Item.quarter <$> data).
  destruct (decide (q ∈ qs)) as [Hin|Hout].
  - rewrite decide_True by (apply first_occurrences_elem, Hin). simpl.
    rewrite JsMap_set_present
      by (auto using first_occurrences_NoDup; apply first_occurrences_elem, Hin).
    apply list_fmap_ext. intros i k _. f_equal.
    rewrite rows_of_snoc. fold q. destruct (decide (k = q)) as [->|Hne].
    + rewrite decide_True by reflexivity. rewrite group_of_snoc. reflexivity.
    + rewrite decide_False by congruence. rewrite app_nil_r. reflexivity.
  - rewrite decide_False by (rewrite first_occurrences_elem; exact Hout). simpl.
    rewrite JsMap_set_absent by (rewrite first_occurrences_elem; exact Hout).
    rewrite fmap_app. simpl. f_equal.
    + apply list_fmap_ext. intros i k Hk. f_equal.
      rewrite rows_of_snoc. fold q. rewrite decide_False; [rewrite app_nil_r; reflexivity|].
      intros Hq. apply Hout. rewrite Hq. apply first_occurrences_elem.
      eapply list_elem_of_lookup_2, Hk.
    + rewrite rows_of_snoc. fold q. rewrite decide_True by reflexivity.
      rewrite (rows_of_absent q data Hout). reflexivity.
Qed.

Lemma group_by_quarter_grouped data : group_by_quarter data = grouped data.
Proof.
  induction data as [|item data IH] using rev_ind; [reflexivity|].
  unfold group_by_quarter in *. rewrite fold_left_app. simpl. rewrite IH.
  apply quarterMap_step_grouped.
Qed.

(** The summaries computed through [quarterMap] are the summaries of the
    specification. *)
Lemma summaries_meet_spec data : summaries data = summaries_spec data.
Proof.
  unfold summaries, summaries_spec, JsMap.entries.
  rewrite group_by_quarter_grouped. unfold grouped.
  rewrite <- list_fmap_compose. reflexivity.
Qed.
End Aggregation.

(** C9. Every group of [quarterMap] counts at least one row when the
    averages are computed (it counts exactly the rows of its quarter, and a
    quarter enters the map with a row), so no summary divides by a zero
    count. *)
Theorem every_group_counts_a_row (data : list Item.t) :
  Forall (fun entry : string * Group.t =>
            1 <= Group.total_stocks entry.2 /\
            Group.total_stocks entry.2 = length (rows_of entry.1 data))
         (JsMap.entries (group_by_quarter data)) /\
  Forall (fun s => Summary.total_stocks s <> 0) (summaries data).
Proof.
  assert (Hgroups :
    Forall (fun entry : string * Group.t =>
              1 <= Group.total_stocks entry.2 /\
              Group.total_stocks entry.2 = length (rows_of entry.1 data))
           (JsMap.entries (group_by_quarter data))).
  { unfold JsMap.entries. rewrite group_by_quarter_grouped. unfold grouped.
    apply Forall_fmap, Forall_forall. intros q Hq. simpl. split; [|reflexivity].
    apply rows_of_present, first_occurrences_elem, Hq. }
  split; [exact Hgroups|].
  unfold summaries. apply Forall_fmap. eapply Forall_impl; [exact Hgroups|].
  intros [q g] [Hpos _]. simpl in *. lia.
Qed.

(** ** Patterns of [clearCache] *)

Section Patterns.
Implicit Types (s p key : string).

Lemma starts_with_spec s p : starts_with s p = true <-> exists after, s = p +:+ after.
Proof.
  revert s. induction p as [|c p IH]; intros s; simpl.
  - split; [intros _; exists s; reflexivity|reflexivity].
  - destruct s as [|d s].
    + split; [discriminate|]. intros [after Heq]. discriminate.
    + rewrite andb_true_iff, bool_decide_eq_true, IH. split.
      * intros [-> [after ->]]. exists after. reflexivity.
      * intros [after [= -> ->]]. split; [reflexivity|]. exists after. reflexivity.
Qed.

Lemma includes_spec key p : includes key p = true <-> substring_of p key.
Proof.
  unfold substring_of. induction key as [|c key IH]; simpl.
  - rewrite orb_false_r, starts_with_spec. split.
    + intros [after Heq]. exists "", after. exact Heq.
    + intros (before & after & Heq). exists after.
      destruct before; [exact Heq|discriminate].
  - rewrite orb_true_iff, starts_with_spec, IH. split.
    + intros [[after Heq]|(before & after & ->)].
      * exists "", after. exact Heq.
      * exists (String c before), after. reflexivity.
    + intros (before & after & Heq). destruct before as [|c' before].
      * left. exists after. exact Heq.
      * right. exists before, after. simpl in Heq. injection Heq as _ Heq. exact Heq.
Qed.

(** Every key contains the empty pattern. *)
Lemma substring_of_empty key : substring_of "" key.
Proof. exists "", key. reflexivity. Qed.
End Patterns.

(** ** [clearCache] *)

Section ClearCache.
Context {any err : Type}.
Implicit Types (w : World any) (m : gmap string (CacheEntry any)).

Lemma lookup_fold_delete (ks : list string) m key :
  fold_left (fun m k => delete k m) ks m !! key =
  if decide (key ∈ ks) then None else m !! key.
Proof.
  revert m. induction ks as [|k ks IH]; intros m; cbn [fold_left].
  - rewrite decide_False; [reflexivity|]. apply not_elem_of_nil.
  - rewrite IH. destruct (decide (key ∈ ks)) as [Hin|Hout].
    + rewrite decide_True by (apply elem_of_cons; auto). reflexivity.
    + destruct (decide (key = k)) as [->|Hne].
      * rewrite decide_True by (apply elem_of_cons; auto). apply lookup_delete_eq.
      * rewrite decide_False by (rewrite elem_of_cons; tauto).
        apply lookup_delete_ne. congruence.
Qed.

Lemma forEach_delete_run (ks : list string) w :
  forEach ks (cache_delete (err:=err)) w =
  Run (Return tt) (MkWorld (fold_left (fun m k => delete k m) ks (cache w)) (now w)) [].
Proof.
  revert w. induction ks as [|k ks IH]; intros w; simpl.
  - destruct w. reflexivity.
  - unfold bind. simpl. rewrite IH. reflexivity.
Qed.

(** C8. [clearCache] returns normally and logs nothing.  Given a
    pattern, it removes the entries whose key contains the pattern and
    leaves every other entry as it was; given none, it empties the cache.
    The clock is not touched. *)
Theorem clearCache_removes_matching_keys (pattern : option string) w :
  let r := clearCache (err:=err) pattern w in
  outcome_of r = Return tt /\ trace_of r = [] /\ now (world_of r) = now w /\
  match pattern with
  | Some p =>
      forall key,
        (substring_of p key -> cache (world_of r) !! key = None) /\
        (~ substring_of p key -> cache (world_of r) !! key = cache w !! key)
  | None => cache (world_of r) = ∅
  end.
Proof.
  destruct pattern as [[|c p]|]; cbv zeta.
  - repeat split; try reflexivity.
    intros Hno. destruct Hno. apply substring_of_empty.
  - unfold clearCache, try_catch, bind, cache_keys, gets. simpl.
    rewrite forEach_delete_run. simpl. repeat split; try reflexivity.
    + intros Hsub. rewrite lookup_fold_delete.
      destruct (cache w !! key) as [e|] eqn:He; [|destruct (decide _); reflexivity].
      rewrite decide_True; [reflexivity|].
      apply list_elem_of_filter. split.
      * apply Is_true_true, includes_spec, Hsub.
      * apply list_elem_of_fmap. exists (key, e). split; [reflexivity|].
        apply elem_of_map_to_list, He.
    + intros Hno. rewrite lookup_fold_delete. rewrite decide_False; [reflexivity|].
      rewrite list_elem_of_filter. intros [Hinc _].
      apply Hno, includes_spec, Is_true_true, Hinc.
  - repeat split; reflexivity.
Qed.
End ClearCache.

(** [clearCache("Q1")] on a cache with two portfolio keys and a quarters
    key. *)
Lemma clearCache_removes_matching_keys_witness :
  substring_of "Q1" "portfolio_Q1_public" /\
  ~ substring_of "Q1" "quarters_public" /\
  let r := clearCache (err:=string) (Some "Q1") sample_cache in
  outcome_of r = Return tt /\
  cache (world_of r) !! "portfolio_Q1_public" = None /\
  cache (world_of r) !! "quarters_public" = Some (Entry 3 0).
Proof.
  assert (Hin : substring_of "Q1" "portfolio_Q1_public").
  { apply includes_spec. reflexivity. }
  assert (Hout : ~ substring_of "Q1" "quarters_public").
  { intros H. apply includes_spec in H. discriminate. }
  split; [exact Hin|]. split; [exact Hout|].
  destruct (clearCache_removes_matching_keys (err:=string) (Some "Q1") sample_cache)
    as (Hret & _ & _ & Hkeys).
  split; [exact Hret|]. split.
  - apply (Hkeys "portfolio_Q1_public"), Hin.
  - rewrite (proj2 (Hkeys "quarters_public") Hout). reflexivity.
Defined.

(** ** The two reads *)

Section ServiceProperties.
Context {err : Type}.
Variable supabase :
  forall R, Supabase.query R -> M (World value) (event err) err (Supabase.response err R).
Implicit Types (w : World value) (userId : option string).

(** C7. When the call gets to the store, and the store answers the
    portfolio query without an error and with no rows (an empty list, or
    no list at all), [getPortfolioByQuarter] returns the empty list; it
    does not throw. *)
Theorem getPortfolioByQuarter_no_rows (quarter : string) userId w reply :
  ~ hit_path (portfolio_key quarter userId) false w ->
  outcome_of (supabase _ (portfolio_query quarter userId) w) = Return reply ->
  Supabase.error reply = None ->
  Supabase.data reply = None \/ Supabase.data reply = Some [] ->
  outcome_of (getPortfolioByQuarter supabase quarter userId w) = Return (Constituents []).
Proof.
  intros Hmiss Hreply Herr Hdata. unfold getPortfolioByQuarter.
  rewrite (getCachedOrFetch_miss _ _ _ _ _ Hmiss). cbv zeta.
  unfold try_catch at 1 2 3. unfold bind at 1 2 3.
  destruct (supabase _ (portfolio_query quarter userId) w) as [o w1 tr].
  simpl in Hreply. subst o. simpl. rewrite Herr. simpl.
  destruct Hdata as [-> | ->]; reflexivity.
Qed.

(** C5. When the call gets to the store, and the store answers the
    quarters query with [rows] and no error, [getQuartersSummary] returns
    one summary per distinct quarter of [rows], in the order in which the
    quarters first occur; each summary counts the rows of its quarter,
    adds up their weights, and divides the sum of their returns by the
    count.  On the rows of the worked example it returns the summaries of
    the worked example. *)
Theorem getQuartersSummary_groups_rows userId w (rows : list Item.t) :
  ~ hit_path (quarters_key userId) false w ->
  outcome_of (supabase _ (quarters_query userId) w)
  = Return (Supabase.Response (Some rows) None) ->
  outcome_of (getQuartersSummary supabase userId w)
  = Return (Summaries (summaries_spec rows)) /\
  (rows = example_rows ->
   outcome_of (getQuartersSummary supabase userId w)
   = Return (Summaries example_summaries)).
Proof.
  intros Hmiss Hreply.
  assert (Hrun : outcome_of (getQuartersSummary supabase userId w)
                 = Return (Summaries (summaries_spec rows))).
  { unfold getQuartersSummary.
    rewrite (getCachedOrFetch_miss _ _ _ _ _ Hmiss). cbv zeta.
    unfold try_catch at 1 2 3. unfold bind at 1 2 3.
    destruct (supabase _ (quarters_query userId) w) as [o w1 tr].
    simpl in Hreply. subst o. cbn -[summaries summaries_spec].
    destruct rows as [|item rows]; [reflexivity|].
    cbn -[summaries summaries_spec]. rewrite summaries_meet_spec. reflexivity. }
  split; [exact Hrun|].
  intros ->. rewrite Hrun. vm_compute. reflexivity.
Qed.
End ServiceProperties.

(** A store without portfolio rows for Q1. *)
Lemma getPortfolioByQuarter_no_rows_witness :
  ~ hit_path (portfolio_key "Q1" None) false sample_service_world /\
  outcome_of (getPortfolioByQuarter (sample_store []) "Q1" None sample_service_world)
  = Return (Constituents []).
Proof.
  assert (Hmiss : ~ hit_path (portfolio_key "Q1" None) false sample_service_world).
  { intros [_ H]. vm_compute in H. exact H. }
  split; [exact Hmiss|].
  apply (getPortfolioByQuarter_no_rows (sample_store []) "Q1" None sample_service_world
           (Supabase.Response (Some []) None) Hmiss); auto.
Defined.

(** A store that holds the rows of the worked example. *)
Lemma getQuartersSummary_groups_rows_witness :
  ~ hit_path (quarters_key None) false sample_service_world /\
  outcome_of (getQuartersSummary (sample_store example_rows) None sample_service_world)
  = Return (Summaries example_summaries).
Proof.
  assert (Hmiss : ~ hit_path (quarters_key None) false sample_service_world).
  { intros [_ H]. vm_compute in H. exact H. }
  split; [exact Hmiss|].
  apply (getQuartersSummary_groups_rows (sample_store example_rows) None
           sample_service_world example_rows Hmiss); reflexivity.
Defined.

(** ** Further properties of the cache *)

Section CacheInvariants.
Context {any err : Type}.
Implicit Types (w : World any) (fetchFn : M (World any) (event err) err any).

Lemma getCachedOrFetch_returned_entry (cacheKey : string) fetchFn
    (forceFresh : bool) w d :
  outcome_of (getCachedOrFetch cacheKey fetchFn forceFresh None w) = Return d ->
  exists c,
    cache (world_of (getCachedOrFetch cacheKey fetchFn forceFresh None w)) !! cacheKey
    = Some c /\ data c = d.
Proof.
  destruct (hit_path_dec cacheKey forceFresh w) as [(c & -> & Hc & Hlt)|Hmiss].
  - rewrite (getCachedOrFetch_hit _ fetchFn None _ _ Hc Hlt). simpl.
    intros [= <-]. exists c. auto.
  - rewrite (getCachedOrFetch_miss _ fetchFn _ None _ Hmiss). cbv zeta.
    destruct (fetchFn w) as [[d'|e] w1 tr]; simpl.
    + intros [= <-]. eexists. split; [apply lookup_insert_eq|reflexivity].
    + destruct (cache w1 !! cacheKey) as [c|] eqn:Hc; simpl; [|discriminate].
      intros [= <-]. exists c. auto.
Qed.

(** Without a fallback value, whatever a call returns is what the cache
    holds under the key once the call is over: the value came from the
    entry (hit path, or the entry kept after a failed fetch) or was just
    stored. *)
Theorem returned_without_fallback_is_stored (cacheKey : string) fetchFn
    (forceFresh : bool) w d :
  outcome_of (getCachedOrFetch cacheKey fetchFn forceFresh None w) = Return d ->
  exists c,
    cache (world_of (getCachedOrFetch cacheKey fetchFn forceFresh None w)) !! cacheKey
    = Some c /\ data c = d.
Proof.
  intros Hret. destruct (getCachedOrFetch_returned_entry _ _ _ _ _ Hret) as (c & Hc & Hd).
  exists c. split; assumption.
Qed.

(** Once a call without a fallback has returned [d], every call for the
    key made while the stored entry is younger than the window returns
    [d] again and does nothing, whether or not the first producer
    succeeded. *)
Lemma returned_without_fallback_is_served_again (cacheKey : string) fetchFn
    (forceFresh : bool) w d :
  outcome_of (getCachedOrFetch cacheKey fetchFn forceFresh None w) = Return d ->
  let w1 := world_of (getCachedOrFetch cacheKey fetchFn forceFresh None w) in
  exists c, cache w1 !! cacheKey = Some c /\
    forall t fetchFn' fallbackData',
      (age (at_time t w1) c < CACHE_DURATION)%Z ->
      getCachedOrFetch cacheKey fetchFn' false fallbackData' (at_time t w1)
      = Run (Return d) (at_time t w1) [].
Proof.
  intros Hret. cbv zeta.
  destruct (getCachedOrFetch_returned_entry _ _ _ _ _ Hret) as (c & Hc & <-).
  exists c. split; [exact Hc|]. intros t fetchFn' fallbackData' Hlt.
  apply (getCachedOrFetch_hit _ fetchFn' fallbackData' (at_time t _) c); assumption.
Qed.
End CacheInvariants.

(** The store is offline, the entry is stale: its data come back and are
    still the entry's. *)
Lemma returned_without_fallback_is_stored_witness :
  outcome_of (getCachedOrFetch "k" sample_fail false None sample_stale) = Return 7 /\
  exists c,
    cache (world_of (getCachedOrFetch "k" sample_fail false None sample_stale)) !! "k"
    = Some c /\ data c = 7.
Proof.
  assert (Hret : outcome_of (getCachedOrFetch "k" sample_fail false None sample_stale)
                 = Return 7) by (vm_compute; reflexivity).
  split; [exact Hret|].
  exact (returned_without_fallback_is_stored "k" sample_fail false sample_stale 7 Hret).
Defined.

(** ** Further properties of the two reads *)

Section ReadRuns.
Context {err : Type}.
Variable supabase :
  forall R, Supabase.query R -> M (World value) (event err) err (Supabase.response err R).
Implicit Types (w : World value) (userId : option string) (quarter : string).

Lemma getPortfolioByQuarter_unfold quarter userId :
  getPortfolioByQuarter supabase quarter userId =
  getCachedOrFetch (portfolio_key quarter userId)
    (portfolio_fetch supabase quarter userId) false None.
Proof. reflexivity. Qed.

Lemma getQuartersSummary_unfold userId :
  getQuartersSummary supabase userId =
  getCachedOrFetch (quarters_key userId) (quarters_fetch supabase userId) false None.
Proof. reflexivity. Qed.

(** How the producer of [getPortfolioByQuarter] ends, by how the store
    answers. *)
Lemma portfolio_fetch_run quarter userId w :
  let s := supabase _ (portfolio_query quarter userId) w in
  portfolio_fetch supabase quarter userId w =
  match outcome_of s with
  | Return reply =>
      match Supabase.error reply with
      | Some e =>
          Run (Throw e) (world_of s)
              (trace_of s ++ [ConsoleError "Error in getPortfolioByQuarter:" e])
      | None =>
          Run (Return (Constituents (default [] (Supabase.data reply))))
              (world_of s) (trace_of s)
      end
  | Throw e =>
      Run (Throw e) (world_of s)
          (trace_of s ++ [ConsoleError "Error in getPortfolioByQuarter:" e])
  end.
Proof.
  cbv zeta. unfold portfolio_fetch, try_catch, bind.
  destruct (supabase _ (portfolio_query quarter userId) w) as [[reply|e] w1 tr]; simpl.
  - destruct (Supabase.error reply) as [e|]; simpl; rewrite ?app_nil_r; reflexivity.
  - reflexivity.
Qed.

Lemma quarters_fetch_run userId w :
  let s := supabase _ (quarters_query userId) w in
  quarters_fetch supabase userId w =
  match outcome_of s with
  | Return reply =>
      match Supabase.error reply with
      | Some e =>
          Run (Throw e) (world_of s)
              (trace_of s ++ [ConsoleError "Error in getQuartersSummary:" e])
      | None =>
          Run (Return (Summaries (summaries (default [] (Supabase.data reply)))))
              (world_of s) (trace_of s)
      end
  | Throw e =>
      Run (Throw e) (world_of s)
          (trace_of s ++ [ConsoleError "Error in getQuartersSummary:" e])
  end.
Proof.
  cbv zeta. unfold quarters_fetch, try_catch, bind.
  destruct (supabase _ (quarters_query userId) w) as [[reply|e] w1 tr];
    cbn -[summaries].
  - destruct (Supabase.error reply) as [e|]; cbn -[summaries];
      rewrite ?app_nil_r; [reflexivity|].
    destruct (Supabase.data reply) as [[|item rows]|]; cbn -[summaries];
      rewrite ?app_nil_r; reflexivity.
  - reflexivity.
Qed.
End ReadRuns.

Section ReadProperties.
Context {err : Type}.
Variable supabase :
  forall R, Supabase.query R -> M (World value) (event err) err (Supabase.response err R).
Implicit Types (w : World value) (userId : option string) (quarter : string).

Local Abbreviation Store :=
  (forall R, Supabase.query R -> M (World value) (event err) err (Supabase.response err R)).

(** Whatever a read has returned, rows or summaries, fresh or stale, is
    stored under its key, and a read of the same key made while that
    entry is younger than the window returns the same value without
    reaching the store: its trace is empty and it does not depend on how
    the store would answer. *)
Theorem reads_are_served_from_the_cache userId w v :
  (forall quarter,
     outcome_of (getPortfolioByQuarter supabase quarter userId w) = Return v ->
     let w1 := world_of (getPortfolioByQuarter supabase quarter userId w) in
     exists c, cache w1 !! portfolio_key quarter userId = Some c /\
       forall t (supabase' : Store),
         (age (at_time t w1) c < CACHE_DURATION)%Z ->
         getPortfolioByQuarter supabase' quarter userId (at_time t w1)
         = Run (Return v) (at_time t w1) []) /\
  (outcome_of (getQuartersSummary supabase userId w) = Return v ->
   let w1 := world_of (getQuartersSummary supabase userId w) in
   exists c, cache w1 !! quarters_key userId = Some c /\
     forall t (supabase' : Store),
       (age (at_time t w1) c < CACHE_DURATION)%Z ->
       getQuartersSummary supabase' userId (at_time t w1)
       = Run (Return v) (at_time t w1) []).
Proof.
  split.
  - intros quarter Hret. cbv zeta. rewrite getPortfolioByQuarter_unfold in *.
    destruct (returned_without_fallback_is_served_again _ _ _ _ _ Hret)
      as (c & Hc & Hagain).
    exists c. split; [exact Hc|]. intros t supabase' Hlt.
    rewrite getPortfolioByQuarter_unfold. apply Hagain, Hlt.
  - intros Hret. cbv zeta. rewrite getQuartersSummary_unfold in *.
    destruct (returned_without_fallback_is_served_again _ _ _ _ _ Hret)
      as (c & Hc & Hagain).
    exists c. split; [exact Hc|]. intros t supabase' Hlt.
    rewrite getQuartersSummary_unfold. apply Hagain, Hlt.
Qed.



(** When the quarters query is answered without an error and without
    rows ([data] is [null] or empty), [getQuartersSummary] returns the
    empty list and caches it like any other result, with the time read
    once the store has answered. *)
Theorem getQuartersSummary_no_rows userId w reply :
  ~ hit_path (quarters_key userId) false w ->
  outcome_of (supabase _ (quarters_query userId) w) = Return reply ->
  Supabase.error reply = None ->
  Supabase.data reply = None \/ Supabase.data reply = Some [] ->
  let s := supabase _ (quarters_query userId) w in
  let r := getQuartersSummary supabase userId w in
  outcome_of r = Return (Summaries []) /\
  cache (world_of r) !! quarters_key userId
  = Some (Entry (Summaries []) (now (world_of s))) /\
  trace_of r = Invoked (quarters_key userId) :: trace_of s.
Proof.
  intros Hmiss Hs Herr Hdata. cbv zeta. rewrite getQuartersSummary_unfold.
  rewrite (getCachedOrFetch_miss _ _ _ _ _ Hmiss). cbv zeta.
  rewrite quarters_fetch_run. cbv zeta. rewrite Hs, Herr.
  destruct Hdata as [-> | ->]; simpl; repeat split; apply lookup_insert_eq.
Qed.
End ReadProperties.

(** *** Concrete runs of the two reads *)

(** The summaries of the worked example are computed once. *)
Lemma reads_are_served_from_the_cache_witness :
  outcome_of (getQuartersSummary (sample_store example_rows) None sample_service_world)
  = Return (Summaries example_summaries) /\
  let w1 :=
    world_of (getQuartersSummary (sample_store example_rows) None sample_service_world) in
  exists c, cache w1 !! quarters_key None = Some c /\
    forall t (supabase' : forall R, Supabase.query R ->
                M (World value) (event string) string (Supabase.response string R)),
      (age (at_time t w1) c < CACHE_DURATION)%Z ->
      getQuartersSummary supabase' None (at_time t w1)
      = Run (Return (Summaries example_summaries)) (at_time t w1) [].
Proof.
  assert (Hret :
    outcome_of (getQuartersSummary (sample_store example_rows) None sample_service_world)
    = Return (Summaries example_summaries)) by (vm_compute; reflexivity).
  split; [exact Hret|].
  exact (proj2 (reads_are_served_from_the_cache (sample_store example_rows) None
                  sample_service_world (Summaries example_summaries)) Hret).
Defined.



(** A store without rows. *)
Lemma getQuartersSummary_no_rows_witness :
  ~ hit_path (quarters_key None) false sample_service_world /\
  outcome_of (getQuartersSummary (sample_store []) None sample_service_world)
  = Return (Summaries []).
Proof.
  assert (Hmiss : ~ hit_path (quarters_key None) false sample_service_world).
  { intros [_ H]. vm_compute in H. exact H. }
  split; [exact Hmiss|].
  apply (getQuartersSummary_no_rows (sample_store []) None sample_service_world
           (Supabase.Response (Some []) None) Hmiss); auto.
Defined.

(** ** The cache stays well typed *)

Section Typing.
Context {err : Type}.
Variable supabase :
  forall R, Supabase.query R -> M (World value) (event err) err (Supabase.response err R).
Implicit Types (w : World value) (userId : option string) (quarter : string).

(** A call whose key is read back as [P]-values, and whose producer
    returns [P]-values, keeps the cache well typed and returns a
    [P]-value. *)
Lemma getCachedOrFetch_typed (key : string) (P : value -> Prop)
    (fetch : M (World value) (event err) err value) w :
  (forall c : CacheEntry value,
     (starts_with key "portfolio_" = true -> is_constituents (data c)) /\
     (starts_with key "quarters_" = true -> is_summaries (data c)) <-> P (data c)) ->
  well_typed w ->
  well_typed (world_of (fetch w)) ->
  (forall d, outcome_of (fetch w) = Return d -> P d) ->
  let r := getCachedOrFetch key fetch false None w in
  well_typed (world_of r) /\ forall v, outcome_of r = Return v -> P v.
Proof.
  intros HP Hw Hw1 Hfetch. cbv zeta.
  destruct (hit_path_dec key false w) as [(c & _ & Hc & Hlt)|Hmiss].
  - rewrite (getCachedOrFetch_hit _ fetch None _ _ Hc Hlt). simpl.
    split; [exact Hw|]. intros v [= <-]. apply HP, (Hw key c Hc).
  - rewrite (getCachedOrFetch_miss _ fetch _ None _ Hmiss). cbv zeta.
    destruct (fetch w) as [[d|e] w1 tr]; simpl in *.
    + split; [|intros v [= <-]; apply Hfetch; reflexivity].
      intros k c'. simpl. rewrite lookup_insert. case_decide as Hk.
      * subst k. intros [= <-]. apply (HP (Entry d (now w1))), Hfetch. reflexivity.
      * apply Hw1.
    + split; [exact Hw1|].
      destruct (cache w1 !! key) as [c|] eqn:Hc; simpl; [|discriminate].
      intros v [= <-]. apply HP, (Hw1 key c Hc).
Qed.

(** [getPortfolioByQuarter] casts what it finds under its key to rows,
    [getQuartersSummary] to summaries, without a check.  The casts are
    sound: when the cache starts well typed and nothing that runs while a
    read waits for the store breaks that, either read leaves the cache
    well typed, a portfolio read returns rows and a quarters read returns
    summaries. *)
Theorem reads_keep_the_cache_well_typed userId w :
  (forall R q w', well_typed w' -> well_typed (world_of (supabase R q w'))) ->
  well_typed w ->
  (forall quarter,
     let r := getPortfolioByQuarter supabase quarter userId w in
     well_typed (world_of r) /\
     forall v, outcome_of r = Return v -> is_constituents v) /\
  (let r := getQuartersSummary supabase userId w in
   well_typed (world_of r) /\
   forall v, outcome_of r = Return v -> is_summaries v).
Proof.
  intros Hstore Hw. split.
  - intros quarter. rewrite getPortfolioByQuarter_unfold.
    apply getCachedOrFetch_typed; try assumption.
    + intros c. split; [intros [H _]; apply H; reflexivity|].
      intros H. split; [intros _; exact H|discriminate].
    + rewrite portfolio_fetch_run. cbv zeta.
      specialize (Hstore _ (portfolio_query quarter userId) w Hw).
      destruct (supabase _ (portfolio_query quarter userId) w) as [[reply|e] w1 tr];
        simpl in *; [destruct (Supabase.error reply)|]; exact Hstore.
    + intros d. rewrite portfolio_fetch_run. cbv zeta.
      destruct (supabase _ (portfolio_query quarter userId) w) as [[reply|e] w1 tr];
        simpl; [destruct (Supabase.error reply)|]; simpl;
        try discriminate. intros [= <-]. exact I.
  - rewrite getQuartersSummary_unfold.
    apply getCachedOrFetch_typed; try assumption.
    + intros c. split; [intros [_ H]; apply H; reflexivity|].
      intros H. split; [discriminate|intros _; exact H].
    + rewrite quarters_fetch_run. cbv zeta.
      specialize (Hstore _ (quarters_query userId) w Hw).
      destruct (supabase _ (quarters_query userId) w) as [[reply|e] w1 tr];
        simpl in *; [destruct (Supabase.error reply)|]; exact Hstore.
    + intros d. rewrite quarters_fetch_run. cbv zeta.
      destruct (supabase _ (quarters_query userId) w) as [[reply|e] w1 tr];
        simpl; [destruct (Supabase.error reply)|]; simpl;
        try discriminate. intros [= <-]. exact I.
Qed.
End Typing.

(** The store of the samples leaves the cache alone. *)
Lemma reads_keep_the_cache_well_typed_witness :
  well_typed sample_service_world /\
  well_typed (world_of (getQuartersSummary (sample_store example_rows) None
                          sample_service_world)) /\
  forall v,
    outcome_of (getPortfolioByQuarter (sample_store example_rows) "Q1" None
                  sample_service_world) = Return v ->
    is_constituents v.
Proof.
  assert (Hw : well_typed sample_service_world).
  { intros key c Hc. simpl in Hc. rewrite lookup_empty in Hc. discriminate. }
  assert (Hstore : forall R q w', well_typed w' ->
            well_typed (world_of (sample_store example_rows R q w'))).
  { intros R q w' Hw'. exact Hw'. }
  split; [exact Hw|].
  destruct (reads_keep_the_cache_well_typed (sample_store example_rows) None
              sample_service_world Hstore Hw) as [Hrows [Hsum _]].
  split; [exact Hsum|]. apply (Hrows "Q1").
Defined.

(** ** Cache keys *)

Section Keys.
Context {err : Type}.
Implicit Types (w : World value) (quarter : string).

Local Abbreviation Store :=
  (forall R, Supabase.query R -> M (World value) (event err) err (Supabase.response err R)).

Lemma append_assoc (a b c : string) : (a +:+ b) +:+ c = a +:+ b +:+ c.
Proof.
  induction a as [|x a IH]; [reflexivity|].
  change (String x ((a +:+ b) +:+ c) = String x (a +:+ b +:+ c)).
  f_equal. exact IH.
Qed.

Lemma append_grows (s t : string) (c : Ascii.ascii) : s +:+ String c t <> s.
Proof.
  induction s as [|x s IH]; [discriminate|].
  change (String x (s +:+ String c t) <> String x s).
  intros [= H]. exact (IH H).
Qed.

(** The key of a read does not tell the user ['public'] from no user,
    though the queries differ (one filters on [user_id = 'public'], the
    other on [user_id IS NULL]).  So once an anonymous read has returned
    [v], a read for the user ['public'] made while that entry is younger
    than the window returns [v] too, without reaching the store. *)
Theorem public_user_is_served_anonymous_entries (supabase : Store) quarter w v :
  portfolio_query quarter (Some "public") <> portfolio_query quarter None /\
  (outcome_of (getPortfolioByQuarter supabase quarter None w) = Return v ->
   let w1 := world_of (getPortfolioByQuarter supabase quarter None w) in
   exists c, cache w1 !! portfolio_key quarter None = Some c /\
     forall t (supabase' : Store),
       (age (at_time t w1) c < CACHE_DURATION)%Z ->
       getPortfolioByQuarter supabase' quarter (Some "public") (at_time t w1)
       = Run (Return v) (at_time t w1) []).
Proof.
  split; [discriminate|].
  intros Hret. cbv zeta. rewrite getPortfolioByQuarter_unfold in *.
  destruct (returned_without_fallback_is_served_again _ _ _ _ _ Hret)
    as (c & Hc & Hagain).
  exists c. split; [exact Hc|]. intros t supabase' Hlt.
  rewrite getPortfolioByQuarter_unfold.
  change (portfolio_key quarter (Some "public")) with (portfolio_key quarter None).
  apply Hagain, Hlt.
Qed.

(** The separator of the key may also occur in a quarter or in a user
    id: the quarter [q_a] read for user [u] and the quarter [q] read for
    user [a_u] are different queries under one key. *)
Theorem portfolio_key_separator_collision quarter (a u : string) :
  u <> "" ->
  portfolio_key (quarter +:+ "_" +:+ a) (Some u)
  = portfolio_key quarter (Some (a +:+ "_" +:+ u)) /\
  portfolio_query (quarter +:+ "_" +:+ a) (Some u)
  <> portfolio_query quarter (Some (a +:+ "_" +:+ u)).
Proof.
  intros Hu. split.
  - unfold portfolio_key. destruct u as [|c u]; [contradiction|].
    assert (Hid : or_else (Some (a +:+ "_" +:+ String c u)) "public"
                  = a +:+ "_" +:+ String c u) by (destruct a; reflexivity).
    rewrite Hid. change (or_else (Some (String c u)) "public") with (String c u).
    f_equal. rewrite !append_assoc. reflexivity.
  - unfold portfolio_query. intros H.
    assert (Hq : Supabase.filters
                   (owned_by (Some u)
                      (Supabase.order "weight" false
                         (Supabase.eq "quarter" (quarter +:+ "_" +:+ a)
                            (Supabase.from_select "portfolio_constituents" Supabase.Star))))
                 !! 0
                 = Some (Supabase.Eq "quarter" quarter)).
    { rewrite H. destruct a; reflexivity. }
    destruct u as [|c u]; [contradiction|]. simpl in Hq.
    injection Hq as Hq. exact (append_grows _ _ _ Hq).
Qed.
End Keys.

(** A user named [u], the quarters [Q1_a] and [Q1]. *)
Lemma portfolio_key_separator_collision_witness :
  portfolio_key "Q1_a" (Some "u") = portfolio_key "Q1" (Some "a_u") /\
  portfolio_query "Q1_a" (Some "u") <> portfolio_query "Q1" (Some "a_u").
Proof.
  apply (portfolio_key_separator_collision "Q1" "a" "u"). discriminate.
Defined.

(** An anonymous read with no rows, then a read for the user ['public']. *)
Lemma public_user_is_served_anonymous_entries_witness :
  outcome_of (getPortfolioByQuarter (sample_store []) "Q1" None sample_service_world)
  = Return (Constituents []) /\
  let w1 := world_of (getPortfolioByQuarter (sample_store []) "Q1" None
                        sample_service_world) in
  exists c, cache w1 !! portfolio_key "Q1" None = Some c /\
    forall t (supabase' : forall R, Supabase.query R ->
                M (World value) (event string) string (Supabase.response string R)),
      (age (at_time t w1) c < CACHE_DURATION)%Z ->
      getPortfolioByQuarter supabase' "Q1" (Some "public") (at_time t w1)
      = Run (Return (Constituents [])) (at_time t w1) [].
Proof.
  assert (Hret :
    outcome_of (getPortfolioByQuarter (sample_store []) "Q1" None sample_service_world)
    = Return (Constituents [])) by (vm_compute; reflexivity).
  split; [exact Hret|].
  exact (proj2 (public_user_is_served_anonymous_entries (sample_store []) "Q1"
                  sample_service_world (Constituents [])) Hret).
Defined.

(** ** Further properties of the summaries *)

Section SummaryProperties.
Implicit Types (q : string) (ks : list string) (data : list Item.t).

Lemma rows_of_cons q item data :
  length (rows_of q (item :: data)) =
  (if decide (Item.quarter item = q) then 1 else 0) + length (rows_of q data).
Proof.
  unfold rows_of. rewrite filter_cons. destruct (decide (Item.quarter item = q)); reflexivity.
Qed.

Lemma sum_list_zero {A} (f : A -> nat) (l : list A) :
  (forall x, x ∈ l -> f x = 0) -> sum_list (f <$> l) = 0.
Proof.
  induction l as [|x l IH]; intros Hz; csimpl; [reflexivity|].
  rewrite (Hz x) by (apply elem_of_cons; auto).
  rewrite IH; [reflexivity|]. intros y Hy. apply Hz. apply elem_of_cons. auto.
Qed.

(** A quarter occurs once in a duplicate-free list that holds it. *)
Lemma sum_indicator q ks :
  NoDup ks -> q ∈ ks ->
  sum_list ((fun k => if decide (q = k) then 1 else 0) <$> ks) = 1.
Proof.
  induction ks as [|k ks IH]; intros Hnd Hin.
  - apply elem_of_nil in Hin. contradiction.
  - apply NoDup_cons in Hnd as [Hk Hnd]. csimpl. destruct (decide (q = k)) as [->|Hne].
    + rewrite sum_list_zero; [reflexivity|].
      intros k' Hk'. rewrite decide_False; [reflexivity|].
      intros ->. contradiction.
    + apply elem_of_cons in Hin as [->|Hin]; [contradiction|]. rewrite IH by assumption.
      reflexivity.
Qed.

Lemma sum_list_fmap_plus {A} (f g : A -> nat) (l : list A) :
  sum_list ((fun x => f x + g x) <$> l) = sum_list (f <$> l) + sum_list (g <$> l).
Proof. induction l as [|x l IH]; csimpl; [reflexivity|]. rewrite IH. lia. Qed.

(** The rows of the quarters of a duplicate-free list that holds every
    quarter of [data] are the rows of [data], each counted once. *)
Lemma rows_partition ks data :
  NoDup ks -> (forall item, item ∈ data -> Item.quarter item ∈ ks) ->
  sum_list ((fun k => length (rows_of k data)) <$> ks) = length data.
Proof.
  intros Hnd. induction data as [|item data IH]; intros Hall.
  - apply sum_list_zero. intros k _. reflexivity.
  - rewrite (list_fmap_ext _
               (fun k => (if decide (Item.quarter item = k) then 1 else 0)
                         + length (rows_of k data)) ks)
      by (intros i k _; apply rows_of_cons).
    rewrite sum_list_fmap_plus, sum_indicator, IH; [reflexivity| | assumption |].
    + intros item' Hin. apply Hall. apply elem_of_cons. auto.
    + apply Hall. apply elem_of_cons. auto.
Qed.

(** The counts of the summaries add up to the number of rows: every
    row is counted in one summary and one only. *)
Theorem summaries_count_every_row_once data :
  sum_list (Summary.total_stocks <$> summaries data) = length data.
Proof.
  rewrite summaries_meet_spec. unfold summaries_spec.
  rewrite <- list_fmap_compose.
  apply (rows_partition (first_occurrences (Item.quarter <$> data)) data).
  - apply first_occurrences_NoDup.
  - intros item Hin. apply first_occurrences_elem, list_elem_of_fmap_2, Hin.
Qed.

(** No quarter has two summaries, the quarters summarised are those of
    the rows, and there are summaries exactly when there are rows. *)
Theorem summaries_one_per_quarter data :
  NoDup (Summary.quarter <$> summaries data) /\
  (forall q, q ∈ Summary.quarter <$> summaries data <-> q ∈ Item.quarter <$> data) /\
  (summaries data = [] <-> data = []).
Proof.
  assert (Hq : Summary.quarter <$> summaries data
               = first_occurrences (Item.quarter <$> data)).
  { rewrite summaries_meet_spec. unfold summaries_spec.
    rewrite <- list_fmap_compose. apply list_fmap_id. }
  rewrite Hq. split; [apply first_occurrences_NoDup|].
  split; [intros q; apply first_occurrences_elem|].
  split.
  - intros Hnil. rewrite Hnil in Hq. destruct data as [|item data]; [reflexivity|].
    discriminate Hq.
  - intros ->. reflexivity.
Qed.
End SummaryProperties.

(** ** Further properties of [clearCache] *)

Section ClearCacheProperties.
Context {any err : Type}.
Implicit Types (w : World any) (p key : string).

Lemma world_eq w w' : cache w = cache w' -> now w = now w' -> w = w'.
Proof. destruct w, w'. simpl. intros -> ->. reflexivity. Qed.

Lemma includes_empty key : includes key "" = true.
Proof. destruct key; reflexivity. Qed.

Lemma substring_of_trans p p' key :
  substring_of p p' -> substring_of p' key -> substring_of p key.
Proof.
  intros (a & b & ->) (a' & b' & ->).
  exists (a' +:+ a), (b +:+ b'). rewrite !append_assoc. reflexivity.
Qed.

(** What is left under a key once [clearCache] has run with a pattern. *)
Lemma clearCache_lookup p w key :
  cache (world_of (clearCache (err:=err) (Some p) w)) !! key =
  if includes key p then None else cache w !! key.
Proof.
  destruct p as [|c p].
  - rewrite includes_empty. apply lookup_empty.
  - unfold clearCache, try_catch, bind, cache_keys, gets. simpl.
    rewrite forEach_delete_run. simpl. rewrite lookup_fold_delete.
    destruct (includes key (String c p)) eqn:Hinc.
    + destruct (cache w !! key) as [e|] eqn:He; [|destruct (decide _); reflexivity].
      rewrite decide_True; [reflexivity|].
      apply list_elem_of_filter. split; [rewrite Hinc; exact I|].
      apply list_elem_of_fmap. exists (key, e). split; [reflexivity|].
      apply elem_of_map_to_list, He.
    + rewrite decide_False; [reflexivity|].
      rewrite list_elem_of_filter, Hinc. intros [[] _].
Qed.

Lemma clearCache_now (pattern : option string) w :
  now (world_of (clearCache (err:=err) pattern w)) = now w.
Proof.
  destruct pattern as [[|c p]|]; try reflexivity.
  unfold clearCache, try_catch, bind, cache_keys, gets. simpl.
  rewrite forEach_delete_run. reflexivity.
Qed.

(** Clearing with a pattern makes clearing with any pattern that
    contains it a no-op, before or after: once [clearCache(p)] has run,
    [clearCache(p')] changes nothing, and running [clearCache(p')] first
    does not change what [clearCache(p)] leaves.  With [p' = p]: clearing
    twice is clearing once. *)
Theorem clearCache_absorbs_wider_patterns p p' w :
  substring_of p p' ->
  let clear pattern w := world_of (clearCache (err:=err) (Some pattern) w) in
  clear p' (clear p w) = clear p w /\ clear p (clear p' w) = clear p w.
Proof.
  intros Hsub. cbv zeta.
  assert (Himp : forall key, includes key p' = true -> includes key p = true).
  { intros key H. apply includes_spec.
    apply (substring_of_trans p p' key Hsub), includes_spec, H. }
  split; (apply world_eq; [|rewrite !clearCache_now; reflexivity]);
    apply map_eq; intros key; rewrite !clearCache_lookup;
    specialize (Himp key);
    destruct (includes key p'), (includes key p); try reflexivity;
    discriminate (Himp eq_refl).
Qed.
End ClearCacheProperties.

(** [clearCache("Q1")], then [clearCache("portfolio_Q1")]. *)
Lemma clearCache_absorbs_wider_patterns_witness :
  substring_of "Q1" "portfolio_Q1" /\
  world_of (clearCache (err:=string) (Some "portfolio_Q1")
              (world_of (clearCache (err:=string) (Some "Q1") sample_cache)))
  = world_of (clearCache (err:=string) (Some "Q1") sample_cache).
Proof.
  assert (Hsub : substring_of "Q1" "portfolio_Q1").
  { apply includes_spec. reflexivity. }
  split; [exact Hsub|].
  exact (proj1 (clearCache_absorbs_wider_patterns (err:=string) "Q1" "portfolio_Q1"
                  sample_cache Hsub)).
Defined.

Section Invalidation.
Context {err : Type}.
Variable supabase :
  forall R, Supabase.query R -> M (World value) (event err) err (Supabase.response err R).
Implicit Types (w : World value) (userId : option string) (quarter : string).

End Invalidation.


(** ** Fallback values and the life of an entry *)

Section EntryLife.
Context {any err : Type}.
Implicit Types (w : World any) (fetchFn : M (World any) (event err) err any).
Implicit Types (cacheKey : string).

(** A fallback value is handed back but never stored: when the producer
    fails with nothing cached, the call returns the fallback and leaves
    the key without an entry, so the next call for the key, whenever it
    is made, invokes its producer. *)
Theorem fallback_is_not_cached cacheKey fetchFn (forceFresh : bool) w e (fb : any) :
  ~ hit_path cacheKey forceFresh w ->
  outcome_of (fetchFn w) = Throw e ->
  cache (world_of (fetchFn w)) !! cacheKey = None ->
  let r := getCachedOrFetch cacheKey fetchFn forceFresh (Some fb) w in
  outcome_of r = Return fb /\
  cache (world_of r) !! cacheKey = None /\
  forall t fetchFn' (forceFresh' : bool) (fallbackData' : option any),
    exists tr,
      trace_of (getCachedOrFetch cacheKey fetchFn' forceFresh' fallbackData'
                  (at_time t (world_of r)))
      = Invoked cacheKey :: tr.
Proof.
  intros Hmiss He Hnone. cbv zeta.
  rewrite (getCachedOrFetch_miss _ _ _ _ _ Hmiss). cbv zeta. rewrite He. simpl.
  rewrite Hnone. split; [reflexivity|]. split; [reflexivity|].
  intros t fetchFn' forceFresh' fallbackData'.
  assert (Hmiss' : ~ hit_path cacheKey forceFresh' (at_time t (world_of (fetchFn w)))).
  { unfold hit_path. simpl. rewrite Hnone. intros [_ []]. }
  rewrite (getCachedOrFetch_miss _ _ _ _ _ Hmiss'). cbv zeta.
  destruct (fetchFn' _) as [[d|e'] w2 tr]; simpl; eexists; reflexivity.
Qed.

End EntryLife.

(** The store is offline and nothing is cached: the fallback 3 is
    returned and the key stays empty. *)
Lemma fallback_is_not_cached_witness :
  ~ hit_path "k" false sample_empty /\
  outcome_of (getCachedOrFetch "k" sample_fail false (Some 3) sample_empty) = Return 3 /\
  cache (world_of (getCachedOrFetch "k" sample_fail false (Some 3) sample_empty)) !! "k"
  = None.
Proof.
  assert (Hmiss : ~ hit_path "k" false sample_empty).
  { intros [_ H]. vm_compute in H. exact H. }
  split; [exact Hmiss|].
  destruct (fallback_is_not_cached "k" sample_fail false sample_empty "offline" 3
              Hmiss eq_refl eq_refl) as (Hret & Hnone & _).
  split; [exact Hret|exact Hnone].
Defined.

